(** * Twitt_scrap_1.py: link filter, metadata extractor, orchestrator and
      result writer, embedded in Rocq.

    Python values are modelled as they are in the script: [str] as the list
    of its code points, [dict] as a finite map keyed by [str], exceptions as
    an error monad.  The external capabilities the script drives are inputs
    of the model:
    - the [csv] module: a file is the list of records [csv.reader] yields,
      and [csv.writer] appends the record it is handed;
    - Playwright: a page visit is the list of responses that arrived, or the
      exception the browser raised;
    - the thread pool: the order in which [as_completed] yields the futures
      (the progress bar only displays, and is left out);
    - the Unicode character database behind [\w] and [\d]. *)

From stdpp Require Import gmap list strings.
From Stdlib Require Import NArith Ascii.

#[global] Set Warnings "-register-all".
#[local] Open Scope N_scope.

(** ** Strings *)

(** A Python [str]: the sequence of its Unicode code points. *)
Definition pystr := list N.

(** A literal of the script, written as a Rocq string of ASCII characters. *)
Fixpoint str (s : string) : pystr :=
  match s with
  | EmptyString => []
  | String a s' => N_of_ascii a :: str s'
  end.
Arguments str s%_string.

(** [s.startswith(prefix)]. *)
Fixpoint startswith (prefix s : pystr) : bool :=
  match prefix, s with
  | [], _ => true
  | c :: prefix', x :: s' => (x =? c) && startswith prefix' s'
  | _ :: _, [] => false
  end.

(** [needle in hay], the substring test on two [str]. *)
Fixpoint contains (needle hay : pystr) : bool :=
  startswith needle hay ||
  match hay with
  | [] => false
  | _ :: hay' => contains needle hay'
  end.

(** ** Character classes of [re] on [str] patterns *)

(** The part of the Unicode character database the patterns consult, for
    code points from U+0080 on: [str.isalnum] and [str.isdecimal] of a
    single character.  Below U+0080 the classes are the ASCII ones. *)
Class UnicodeData := {
  uni_isalnum : N -> bool;
  uni_isdecimal : N -> bool
}.

Definition ascii_isdecimal (c : N) : bool := (48 <=? c) && (c <=? 57).

Definition ascii_isalnum (c : N) : bool :=
  ascii_isdecimal c || (65 <=? c) && (c <=? 90) || (97 <=? c) && (c <=? 122).

Inductive category :=
| Word    (* \w *)
| Digit.  (* \d *)

Section Regex.
Context `{UnicodeData}.

Definition isalnum (c : N) : bool :=
  if c <? 128 then ascii_isalnum c else uni_isalnum c.

Definition isdecimal (c : N) : bool :=
  if c <? 128 then ascii_isdecimal c else uni_isdecimal c.

(** [\w] is an alphanumeric character or the underscore, [\d] a decimal
    digit. *)
Definition in_category (k : category) (c : N) : bool :=
  match k with
  | Word => isalnum c || (c =? 95)
  | Digit => isdecimal c
  end.

(** Length of the longest prefix of [s] made of characters of [k]. *)
Fixpoint run_length (k : category) (s : pystr) : nat :=
  match s with
  | c :: s' => if in_category k c then S (run_length k s') else O
  | [] => O
  end.

End Regex.

(** ** The patterns of the script and the backtracking matcher *)

(** The constructs the two patterns of the script are made of. *)
Inductive node :=
| Literal (c : N)            (* a character, escaped or not *)
| MaxRepeat (k : category)   (* k+, greedy *)
| Subpattern (k : category)  (* (k+), a capturing group around a greedy k+ *)
| AtEnd.                     (* $ *)

Definition lit (s : string) : list node := map Literal (str s).
Arguments lit s%_string.

(** A match object: the captured groups, first group first, and the input
    left after the match. *)
Record match_obj := { groups : list pystr; remainder : pystr }.

(** [$] without [re.MULTILINE]: at the end of the string, or just before a
    line feed that is the last character. *)
Definition at_end (s : pystr) : bool :=
  match s with
  | [] => true
  | [10] => true
  | _ => false
  end.

(** Greedy choice: the longest count first, down to one. *)
Fixpoint longest_first {A} (attempt : nat -> option A) (n : nat) : option A :=
  match n with
  | O => None
  | S n' =>
      match attempt n with
      | Some a => Some a
      | None => longest_first attempt n'
      end
  end.

Definition capture (g : pystr) (m : match_obj) : match_obj :=
  {| groups := g :: groups m; remainder := remainder m |}.

Section Matcher.
Context `{UnicodeData}.

(** Match pattern [p] at the start of [s]. *)
Fixpoint match_here (p : list node) (s : pystr) : option match_obj :=
  match p with
  | [] => Some {| groups := []; remainder := s |}
  | Literal c :: p' =>
      match s with
      | x :: s' => if x =? c then match_here p' s' else None
      | [] => None
      end
  | MaxRepeat k :: p' =>
      longest_first (fun n => match_here p' (drop n s)) (run_length k s)
  | Subpattern k :: p' =>
      longest_first (fun n => capture (take n s) <$> match_here p' (drop n s))
                    (run_length k s)
  | AtEnd :: p' => if at_end s then match_here p' s else None
  end.

(** [pattern.match(s)]: anchored at the start of [s]. *)
Definition re_match (p : list node) (s : pystr) : option match_obj :=
  match_here p s.

(** [re.search(pattern, s)]: the match at the leftmost position that has
    one. *)
Fixpoint re_search (p : list node) (s : pystr) : option match_obj :=
  match match_here p s with
  | Some m => Some m
  | None =>
      match s with
      | [] => None
      | _ :: s' => re_search p s'
      end
  end.

End Matcher.

(** ** Exceptions *)

(** The exceptions the script can meet, all of them instances of
    [Exception].  The first four are raised by the interpreter on the
    operations the script performs on decoded payloads, match objects and
    dicts, with the messages of CPython 3.11; [Error] stands for whatever the
    browser or the JSON decoder raises, with its description. *)
Inductive exception :=
| KeyError (key : pystr)
| TypeError (msg : pystr)
| AttributeError (msg : pystr)
| IndexError (msg : pystr)
| Error (msg : pystr).

(** [str(e)].  A [KeyError] prints the [repr] of its key; the keys the script
    subscripts with are plain identifiers. *)
Definition exc_str (e : exception) : pystr :=
  match e with
  | KeyError key => str "'" ++ key ++ str "'"
  | TypeError msg | AttributeError msg | IndexError msg | Error msg => msg
  end.

(** A computation that returns a value or raises. *)
Inductive result (A : Type) :=
| Ok (a : A)
| Raise (e : exception).
Arguments Ok {A} a.
Arguments Raise {A} e.

#[global] Instance result_ret : MRet result := fun A a => Ok a.
#[global] Instance result_bind : MBind result := fun A B f m =>
  match m with
  | Ok a => f a
  | Raise e => Raise e
  end.

(** [try: body except Exception as e: handler(e)]. *)
Definition try_except {A} (body : result A) (handler : exception -> result A)
  : result A :=
  match body with
  | Ok a => Ok a
  | Raise e => handler e
  end.

(** ** Values *)

(** The values a decoded JSON payload is made of, and the values the
    metadata dicts hold. *)
Inductive pyval :=
| PNone
| PBool (b : bool)
| PInt (z : Z)
| PFloat (repr : pystr)
| PStr (s : pystr)
| PList (l : list pyval)
| PDict (d : gmap pystr pyval).

Abbreviation dict := (gmap pystr pyval).

Definition type_name (v : pyval) : pystr :=
  match v with
  | PNone => str "NoneType"
  | PBool _ => str "bool"
  | PInt _ => str "int"
  | PFloat _ => str "float"
  | PStr _ => str "str"
  | PList _ => str "list"
  | PDict _ => str "dict"
  end.

(** [v[key]] for a [str] key. *)
Definition subscript (v : pyval) (key : pystr) : result pyval :=
  match v with
  | PDict d =>
      match d !! key with
      | Some x => Ok x
      | None => Raise (KeyError key)
      end
  | PStr _ => Raise (TypeError (str "string indices must be integers, not 'str'"))
  | PList _ =>
      Raise (TypeError (str "list indices must be integers or slices, not str"))
  | _ =>
      Raise (TypeError (str "'" ++ type_name v ++ str "' object is not subscriptable"))
  end.

(** [v.get(key, default)]: only a dict has the method. *)
Definition get (v : pyval) (key : pystr) (default : pyval) : result pyval :=
  match v with
  | PDict d => Ok (from_option id default (d !! key))
  | _ =>
      Raise (AttributeError
               (str "'" ++ type_name v ++ str "' object has no attribute 'get'"))
  end.

(** A dict display [{k1: v1, ..., kn: vn}] with distinct keys. *)
Definition dict_of (items : list (pystr * pyval)) : dict := list_to_map items.

(** Truth value of a dict: false exactly when it is empty. *)
Definition truthy (d : dict) : bool := bool_decide (d ≠ ∅).

Definition NA : pyval := PStr (str "N/A").

(** ** Files operations (I/O) *)

(** A [csv.writer] on a file opened for writing: its delimiter and the
    records written so far, each the list of fields handed to [writerow]. *)
Record csv_writer (F : Type) := { delimiter : N; records : list (list F) }.
Arguments delimiter {F} _.
Arguments records {F} _.

Definition csv_open {F} (delim : N) : csv_writer F :=
  {| delimiter := delim; records := [] |}.

Definition writerow {F} (w : csv_writer F) (row : list F) : csv_writer F :=
  {| delimiter := delimiter w; records := records w ++ [row] |}.

(** The pattern of [extract_valid_links]:
    [https://x\.com/\w+/status/\d+$]. *)
Definition valid_link_regex : list node :=
  lit "https://x.com/" ++ [MaxRepeat Word] ++ lit "/status/" ++
  [MaxRepeat Digit; AtEnd].

(** The pattern of [extract_username_from_url]:
    [https://x\.com/(\w+)/status/\d+]. *)
Definition username_regex : list node :=
  lit "https://x.com/" ++ [Subpattern Word] ++ lit "/status/" ++
  [MaxRepeat Digit].

Section Script.
Context `{UnicodeData}.

(** [extract_valid_links]: [infile] is the list of rows the reader yields
    from the input file; the value is the writer on the output file when the
    loops end. *)
Definition extract_valid_links (infile : list (list pystr)) : csv_writer pystr :=
  foldl (fun csv_writer row =>
           foldl (fun csv_writer link =>
                    match re_match valid_link_regex link with
                    | Some _ => writerow csv_writer [link]
                    | None => csv_writer
                    end)
                 csv_writer row)
        (csv_open (N_of_ascii ",")) infile.

(** ** Scraping *)

(** [match.group(n)] for [n >= 1]. *)
Definition group (m : match_obj) (n : nat) : result pystr :=
  match groups m !! pred n with
  | Some g => Ok g
  | None => Raise (IndexError (str "no such group"))
  end.

Definition extract_username_from_url (url : pystr) : result pystr :=
  match re_search username_regex url with
  | Some m => group m 1
  | None => Ok (str "N/A")
  end.

(** A response as the interceptor sees it: the resource type of its request,
    its address, and what calling [json()] on it gives. *)
Record response := {
  resource_type : pystr;
  url : pystr;
  json : result pyval
}.

(** What the browser does for one call of [scrape_tweet_metadata]: either
    launching, navigating and waiting for the tweet selector all return, and
    [responses] arrived meanwhile, in this order; or one of them raises (a
    navigation or a wait that lasts too long raises Playwright's timeout
    error). *)
Inductive page_visit :=
| Loaded (responses : list response)
| Failed (e : exception).

Definition intercept_response (_xhr_calls : list response) (r : response)
  : list response :=
  if bool_decide (resource_type r = str "xhr") then _xhr_calls ++ [r]
  else _xhr_calls.

(** The dict built from the legacy record of the first tweet call. *)
Definition tweet_metadata (username : pystr) (legacy : pyval) : result dict :=
  text ← get legacy (str "full_text") NA;
  date ← get legacy (str "created_at") NA;
  comment_count ← get legacy (str "reply_count") NA;
  like_count ← get legacy (str "favorite_count") NA;
  share_count ← get legacy (str "retweet_count") NA;
  mret (dict_of [(str "text", text);
                 (str "username", PStr username);
                 (str "date", date);
                 (str "comment_count", comment_count);
                 (str "like_count", like_count);
                 (str "share_count", share_count)]).

Definition default_metadata (username : pystr) : dict :=
  dict_of [(str "text", NA);
           (str "username", PStr username);
           (str "date", NA);
           (str "comment_count", NA);
           (str "like_count", NA);
           (str "share_count", NA)].

(** The [for xhr in tweet_calls] loop: its body returns or raises on the
    first element, and the default is returned when there is none. *)
Definition first_tweet_call (username : pystr) (tweet_calls : list response)
  : result dict :=
  match tweet_calls with
  | xhr :: _ =>
      data ← json xhr;
      d1 ← subscript data (str "data");
      d2 ← subscript d1 (str "tweetResult");
      d3 ← subscript d2 (str "result");
      legacy ← subscript d3 (str "legacy");
      tweet_metadata username legacy
  | [] => mret (default_metadata username)
  end.

(** [_xhr_calls] when the page has loaded: the responses the interceptor
    kept, in arrival order. *)
Definition xhr_calls (responses : list response) : list response :=
  foldl intercept_response [] responses.

(** [[f for f in _xhr_calls if "TweetResultByRestId" in f.url]]. *)
Definition tweet_calls (_xhr_calls : list response) : list response :=
  filter (λ f, contains (str "TweetResultByRestId") (url f) = true) _xhr_calls.

Definition scrape_tweet_metadata (link : pystr) (visit : page_visit)
  : result dict :=
  username ← extract_username_from_url link;
  match visit with
  | Failed e => Raise e
  | Loaded responses =>
      first_tweet_call username (tweet_calls (xhr_calls responses))
  end.

(** [get_links_from_csv]: the fields of all rows, in order. *)
Definition get_links_from_csv (infile : list (list pystr)) : list pystr :=
  foldl (fun links row => links ++ row) [] infile.

Definition header : list pyval :=
  [PStr (str "Link"); PStr (str "Text"); PStr (str "Username");
   PStr (str "Date"); PStr (str "Comment Count"); PStr (str "Like Count");
   PStr (str "Share Count")].

(** [metadata.get(key, 'N/A')] on a dict. *)
Definition get_or_NA (metadata : dict) (key : pystr) : pyval :=
  from_option id NA (metadata !! key).

Definition save_results_to_csv (results : list (pystr * dict))
  : csv_writer pyval :=
  foldl (fun csv_writer '(link, metadata) =>
           writerow csv_writer
             [PStr link;
              get_or_NA metadata (str "text");
              get_or_NA metadata (str "username");
              get_or_NA metadata (str "date");
              get_or_NA metadata (str "comment_count");
              get_or_NA metadata (str "like_count");
              get_or_NA metadata (str "share_count")])
        (writerow (csv_open (N_of_ascii ";")) header) results.

(** ** Main *)

(** A submitted task: the identity of its future, and what [result()] does
    once the task is done. *)
Record future := { fut_id : nat; fut_result : result dict }.

Definition error_dict (msg : pystr) : dict := dict_of [(str "error", PStr msg)].

(** The body of the [for future in as_completed(...)] loop, from the current
    [results] to the next.  The lookup of the link stands before the [try],
    as in the script; it cannot fail on a future the loop was given. *)
Definition collect (future_to_link : gmap nat pystr)
    (results : list (pystr * dict)) (f : future)
  : result (list (pystr * dict)) :=
  link ← match future_to_link !! fut_id f with
         | Some link => Ok link
         | None => Raise (KeyError (str "<Future>"))
         end;
  try_except
    (metadata ← fut_result f;
     mret (results ++
           [(link, if truthy metadata then metadata
                   else error_dict (str "Could not scrape"))]))
    (fun e => mret (results ++ [(link, error_dict (str "Error: " ++ exc_str e))])).

Fixpoint for_completed (future_to_link : gmap nat pystr)
    (completed : list future) (results : list (pystr * dict))
  : result (list (pystr * dict)) :=
  match completed with
  | [] => mret results
  | f :: rest =>
      results' ← collect future_to_link results f;
      for_completed future_to_link rest results'
  end.

(** [scrape_all_tweets]: [browse i] is the page visit of the task submitted
    for the link at index [i], and [order] the indices of the futures in the
    order [as_completed] yields them. *)
Definition scrape_all_tweets (browse : nat -> page_visit) (order : list nat)
    (links : list pystr) : result (list (pystr * dict)) :=
  let futures :=
    imap (fun i link =>
            {| fut_id := i; fut_result := scrape_tweet_metadata link (browse i) |})
         links in
  let future_to_link : gmap nat pystr :=
    list_to_map (imap (fun i link => (i, link)) links) in
  let completed := omap (fun i => futures !! i) order in
  for_completed future_to_link completed [].

(** The main block of the script.  The file of cleaned links is read back as
    the records the filter wrote. *)
Definition main (input_csv : list (list pystr)) (browse : nat -> page_visit)
    (order : list nat) : result (csv_writer pyval) :=
  let cleaned_links := extract_valid_links input_csv in
  let links := get_links_from_csv (records cleaned_links) in
  results ← scrape_all_tweets browse order links;
  mret (save_results_to_csv results).

End Script.

(** The character database cut down to Latin-1: as CPython has it up to
    U+00FF, and no character beyond counted.  It serves to run the script on
    concrete inputs. *)
Definition latin1 : UnicodeData := {|
  uni_isalnum c :=
    (c =? 170) || (c =? 178) || (c =? 179) || (c =? 181) || (c =? 185) ||
    (c =? 186) || (188 <=? c) && (c <=? 190) || (192 <=? c) && (c <=? 214) ||
    (216 <=? c) && (c <=? 246) || (248 <=? c) && (c <=? 255);
  uni_isdecimal c := false
|}.

(** * Vocabulary of the properties *)

Section Vocabulary.
Context `{UnicodeData}.

(** A non-empty run of characters of one class: what [\w+] and [\d+] match. *)
Definition segment (k : category) (u : pystr) : Prop :=
  u ≠ [] ∧ Forall (λ c, in_category k c = true) u.

(** The address of the tweet [d] of user [u]. *)
Definition tweet_url (u d : pystr) : pystr :=
  str "https://x.com/" ++ u ++ str "/status/" ++ d.

(** The tweet-address pattern occurs in [s] right after [pre], with [u]
    between the host and [/status/]. *)
Definition tweet_url_at (s pre u : pystr) : Prop :=
  ∃ d post, segment Word u ∧ segment Digit d ∧ s = pre ++ tweet_url u d ++ post.

(** The cells the filter keeps. *)
Definition accepted (link : pystr) : Prop :=
  is_Some (re_match valid_link_regex link).

#[global] Instance accepted_dec link : Decision (accepted link).
Proof. unfold accepted. apply _. Defined.

(** The two kinds of dict the extractor returns. *)
Inductive returned : dict → Prop :=
| returned_extracted (username : pystr) (legacy : dict) (metadata : dict) :
    tweet_metadata username (PDict legacy) = Ok metadata → returned metadata
| returned_default (username : pystr) :
    returned (default_metadata username).

(** What the loop body appends for the future of [link], given what its
    [result()] does. *)
Definition recorded (link : pystr) (r : result dict) : pystr * dict :=
  match r with
  | Ok metadata =>
      (link, if truthy metadata then metadata
             else error_dict (str "Could not scrape"))
  | Raise e => (link, error_dict (str "Error: " ++ exc_str e))
  end.

(** The three kinds of outcome a result entry can hold. *)
Inductive outcome : dict → Prop :=
| outcome_metadata (username : pystr) (legacy metadata : dict) :
    tweet_metadata username (PDict legacy) = Ok metadata → outcome metadata
| outcome_default (username : pystr) : outcome (default_metadata username)
| outcome_error (msg : pystr) : outcome (error_dict msg).

(** The entry of the task at index [i], when there is such a task. *)
Definition entry (browse : nat → page_visit) (links : list pystr) (i : nat)
  : option (pystr * dict) :=
  (λ link, recorded link (scrape_tweet_metadata link (browse i))) <$> links !! i.

(** The data row written for one result. *)
Definition data_row (entry : pystr * dict) : list pyval :=
  [PStr entry.1;
   default NA (entry.2 !! str "text");
   default NA (entry.2 !! str "username");
   default NA (entry.2 !! str "date");
   default NA (entry.2 !! str "comment_count");
   default NA (entry.2 !! str "like_count");
   default NA (entry.2 !! str "share_count")].

End Vocabulary.

(** The value reached from [v] along the keys of [path], every step through
    a dict that has the key. *)
Fixpoint at_path (v : pyval) (path : list pystr) : option pyval :=
  match path with
  | [] => Some v
  | key :: path' =>
      match v with
      | PDict d => d !! key ≫= λ x, at_path x path'
      | _ => None
      end
  end.

(** data → tweetResult → result → legacy. *)
Definition legacy_path : list pystr :=
  [str "data"; str "tweetResult"; str "result"; str "legacy"].

Definition marker : pystr := str "TweetResultByRestId".

(** ** Sample inputs *)

Definition alice : pystr := str "https://x.com/alice/status/12345".
Definition bob : pystr := str "https://x.com/bob/status/7".
Definition endpoint : pystr :=
  str "https://x.com/i/api/graphql/Xl5pC/TweetResultByRestId?variables=12345".
Definition timeout : exception := Error (str "Timeout 30000ms exceeded.").

(** A payload with the legacy record of a tweet that has a text and a like
    count, and nothing else. *)
Definition payload : pyval :=
  PDict (dict_of [(str "data", PDict (dict_of
    [(str "tweetResult", PDict (dict_of
       [(str "result", PDict (dict_of
          [(str "legacy", PDict (dict_of
             [(str "full_text", PStr (str "hello"));
              (str "favorite_count", PInt 3)]))]))]))]))]).

Definition stylesheet : response :=
  {| resource_type := str "stylesheet"; url := endpoint;
     json := Raise (Error (str "not JSON")) |}.
Definition tweet_call : response :=
  {| resource_type := str "xhr"; url := endpoint; json := Ok payload |}.
Definition late_call : response :=
  {| resource_type := str "xhr"; url := endpoint; json := Ok PNone |}.
Definition other_call : response :=
  {| resource_type := str "xhr"; url := str "https://x.com/i/api/1.1/jot";
     json := Ok PNone |}.
Definition empty_call : response :=
  {| resource_type := str "xhr"; url := endpoint; json := Ok (PDict ∅) |}.

(** Two tasks: the page of the first loads without any tweet call, the
    second visit fails, or loads as well. *)
Definition second_fails (i : nat) : page_visit :=
  match i with
  | 1%nat => Failed timeout
  | _ => Loaded [other_call]
  end.
Definition both_load (i : nat) : page_visit := Loaded [other_call].

(** Every visit fails. *)
Definition all_fail (i : nat) : page_visit := Failed timeout.

(** A raw input file of two rows, with two tweet addresses among its
    cells. *)
Definition raw_file : list (list pystr) :=
  [[alice; str "not a link"]; [str "https://x.com/alice"; bob]].


(** The payload of a tweet that is gone: the result has no legacy record. *)
Definition tombstone : pyval :=
  PDict (dict_of [(str "data", PDict (dict_of
    [(str "tweetResult", PDict (dict_of
       [(str "result", PDict (dict_of
          [(str "__typename", PStr (str "TweetTombstone"))]))]))]))]).
Definition tombstone_call : response :=
  {| resource_type := str "xhr"; url := endpoint; json := Ok tombstone |}.

(** * Properties *)

(** Literals and dict displays stay folded in the goals. *)
Arguments str : simpl never.
Arguments dict_of : simpl never.

(** ** Strings and the matcher *)

Lemma startswith_app (w s : pystr) : startswith w (w ++ s) = true.
Proof.
  induction w as [|c w IH]; simpl; [done|].
  by rewrite N.eqb_refl.
Qed.

Lemma startswith_inv (w s : pystr) :
  startswith w s = true → ∃ s', s = w ++ s'.
Proof.
  revert s. induction w as [|c w IH]; intros s Hs; simpl in *.
  - by exists s.
  - destruct s as [|x s]; [done|].
    apply andb_prop in Hs as [Hx Hw]. apply N.eqb_eq in Hx as ->.
    destruct (IH _ Hw) as [s' ->]. by exists s'.
Qed.

Lemma contains_startswith (needle hay : pystr) :
  startswith needle hay = true → contains needle hay = true.
Proof. intros Hs. destruct hay; simpl; by rewrite Hs. Qed.

Lemma contains_app (needle pre post : pystr) :
  contains needle (pre ++ needle ++ post) = true.
Proof.
  induction pre as [|c pre IH]; simpl.
  - apply contains_startswith, startswith_app.
  - rewrite IH. apply orb_true_r.
Qed.

Lemma contains_inv (needle hay : pystr) :
  contains needle hay = true → ∃ pre post, hay = pre ++ needle ++ post.
Proof.
  induction hay as [|c hay IH]; simpl; intros Hc.
  - rewrite orb_false_r in Hc. apply startswith_inv in Hc as [s' ->].
    by exists [], s'.
  - apply orb_prop in Hc as [Hc|Hc].
    + apply startswith_inv in Hc as [s' ->]. by exists [], s'.
    + destruct (IH Hc) as (pre & post & ->). by exists (c :: pre), post.
Qed.

(** [needle in hay] holds exactly when [needle] is a substring of [hay]. *)
Lemma contains_substring (needle hay : pystr) :
  contains needle hay = true ↔ ∃ pre post, hay = pre ++ needle ++ post.
Proof.
  split; [apply contains_inv|]. intros (pre & post & ->). apply contains_app.
Qed.

Lemma longest_first_Some {A} (attempt : nat → option A) (n : nat) (a : A) :
  longest_first attempt n = Some a →
  ∃ k, (1 ≤ k ≤ n)%nat ∧ attempt k = Some a ∧
       ∀ j, (k < j ≤ n)%nat → attempt j = None.
Proof.
  induction n as [|n IH]; simpl; [done|].
  destruct (attempt (S n)) as [a'|] eqn:E.
  - intros [= ->]. exists (S n). split_and!; [lia|lia|done|lia].
  - intros Hn. destruct (IH Hn) as (k & Hk & Hak & Hlt).
    exists k. split_and!; [lia|lia|done|].
    intros j Hj. destruct (decide (j = S n)) as [->|]; [done|].
    apply Hlt. lia.
Qed.

Lemma longest_first_top {A} (attempt : nat → option A) (n : nat) (a : A) :
  attempt (S n) = Some a → longest_first attempt (S n) = Some a.
Proof. intros E. simpl. by rewrite E. Qed.

Section MatcherProperties.
Context `{UnicodeData}.

Lemma match_here_lit (w : pystr) (p : list node) (s : pystr) :
  match_here (map Literal w ++ p) s =
  if startswith w s then match_here p (drop (length w) s) else None.
Proof.
  revert s. induction w as [|c w IH]; intros s; simpl; [done|].
  destruct s as [|x s]; [done|].
  destruct (x =? c); simpl; [apply IH|done].
Qed.

Lemma run_length_le (k : category) (s : pystr) : (run_length k s ≤ length s)%nat.
Proof.
  induction s as [|c s IH]; simpl; [done|].
  destruct (in_category k c); simpl; lia.
Qed.

Lemma run_length_take (k : category) (s : pystr) (n : nat) :
  (n ≤ run_length k s)%nat → Forall (λ c, in_category k c = true) (take n s).
Proof.
  revert n. induction s as [|c s IH]; intros n Hn; simpl in *.
  - by rewrite take_nil.
  - destruct n as [|n]; [constructor|].
    destruct (in_category k c) eqn:E; [|lia].
    simpl. constructor; [done|]. apply IH. lia.
Qed.

Lemma run_length_app (k : category) (u s : pystr) :
  Forall (λ c, in_category k c = true) u →
  head (in_category k <$> s) ≠ Some true →
  run_length k (u ++ s) = length u.
Proof.
  intros Hu Hs. induction Hu as [|c u Hc _ IH]; simpl.
  - destruct s as [|x s]; simpl in *; [done|].
    destruct (in_category k x); [done|done].
  - by rewrite Hc, IH.
Qed.

Lemma match_here_MaxRepeat (k : category) (p : list node) (s : pystr) :
  match_here (MaxRepeat k :: p) s =
  longest_first (λ n, match_here p (drop n s)) (run_length k s).
Proof. done. Qed.

Lemma match_here_Subpattern (k : category) (p : list node) (s : pystr) :
  match_here (Subpattern k :: p) s =
  longest_first (λ n, capture (take n s) <$> match_here p (drop n s))
                (run_length k s).
Proof. done. Qed.

(** A successful [k+] consumed a non-empty prefix of characters of [k]. *)
Lemma match_here_MaxRepeat_inv (k : category) (p : list node) (s : pystr)
    (m : match_obj) :
  match_here (MaxRepeat k :: p) s = Some m →
  ∃ u s', s = u ++ s' ∧ u ≠ [] ∧ Forall (λ c, in_category k c = true) u ∧
          match_here p s' = Some m.
Proof.
  rewrite match_here_MaxRepeat. intros Hm.
  apply longest_first_Some in Hm as (n & Hn & Hp & _).
  exists (take n s), (drop n s). split_and!.
  - by rewrite take_drop.
  - intros E. apply (f_equal length) in E. rewrite length_take in E.
    pose proof (run_length_le k s). simpl in E. lia.
  - apply run_length_take. lia.
  - done.
Qed.

Lemma match_here_Subpattern_inv (k : category) (p : list node) (s : pystr)
    (m : match_obj) :
  match_here (Subpattern k :: p) s = Some m →
  ∃ u s' m', s = u ++ s' ∧ u ≠ [] ∧ Forall (λ c, in_category k c = true) u ∧
             match_here p s' = Some m' ∧ m = capture u m'.
Proof.
  rewrite match_here_Subpattern. intros Hm.
  apply longest_first_Some in Hm as (n & Hn & Hp & _).
  destruct (match_here p (drop n s)) as [m'|] eqn:E; [|done].
  simpl in Hp. injection Hp as <-.
  exists (take n s), (drop n s), m'. split_and!.
  - by rewrite take_drop.
  - intros E'. apply (f_equal length) in E'. rewrite length_take in E'.
    pose proof (run_length_le k s). simpl in E'. lia.
  - apply run_length_take. lia.
  - done.
  - done.
Qed.

(** When the run of [k] is exactly [u] and the rest of the pattern matches
    after it, the greedy first attempt succeeds. *)
Lemma match_here_MaxRepeat_exact (k : category) (p : list node) (u s : pystr)
    (m : match_obj) :
  u ≠ [] → Forall (λ c, in_category k c = true) u →
  head (in_category k <$> s) ≠ Some true →
  match_here p s = Some m →
  match_here (MaxRepeat k :: p) (u ++ s) = Some m.
Proof.
  intros Hne Hu Hs Hp. rewrite match_here_MaxRepeat, run_length_app by done.
  destruct u as [|c u]; [done|]. apply longest_first_top.
  by rewrite (drop_app_length (c :: u)).
Qed.

Lemma match_here_Subpattern_exact (k : category) (p : list node) (u s : pystr)
    (m : match_obj) :
  u ≠ [] → Forall (λ c, in_category k c = true) u →
  head (in_category k <$> s) ≠ Some true →
  match_here p s = Some m →
  match_here (Subpattern k :: p) (u ++ s) = Some (capture u m).
Proof.
  intros Hne Hu Hs Hp. rewrite match_here_Subpattern, run_length_app by done.
  destruct u as [|c u]; [done|]. apply longest_first_top.
  by rewrite (drop_app_length (c :: u)), (take_app_length (c :: u)), Hp.
Qed.

Lemma match_here_MaxRepeat_last (k : category) (s : pystr) :
  (1 ≤ run_length k s)%nat →
  match_here [MaxRepeat k] s =
  Some {| groups := []; remainder := drop (run_length k s) s |}.
Proof.
  intros Hk. rewrite match_here_MaxRepeat.
  destruct (run_length k s) as [|n] eqn:E; [lia|].
  by apply longest_first_top.
Qed.

Lemma match_here_lit_app (w : pystr) (p : list node) (s : pystr) :
  match_here (map Literal w ++ p) (w ++ s) = match_here p s.
Proof. by rewrite match_here_lit, startswith_app, drop_app_length. Qed.

Lemma match_here_lit_inv (w : pystr) (p : list node) (s : pystr) (m : match_obj) :
  match_here (map Literal w ++ p) s = Some m →
  ∃ s', s = w ++ s' ∧ match_here p s' = Some m.
Proof.
  rewrite match_here_lit. destruct (startswith w s) eqn:E; [|done].
  apply startswith_inv in E as [s' ->]. rewrite drop_app_length. eauto.
Qed.

Lemma re_search_Some (p : list node) (s : pystr) (m : match_obj) :
  re_search p s = Some m →
  ∃ pre s', s = pre ++ s' ∧ match_here p s' = Some m.
Proof.
  induction s as [|c s IH]; simpl.
  - destruct (match_here p []) eqn:E; [|done]. intros [= ->]. by exists [], [].
  - destruct (match_here p (c :: s)) eqn:E.
    + intros [= ->]. by exists [], (c :: s).
    + intros Hs. destruct (IH Hs) as (pre & s' & -> & Hm).
      by exists (c :: pre), s'.
Qed.

Lemma re_search_None (p : list node) (s : pystr) :
  (∀ pre s', s = pre ++ s' → match_here p s' = None) → re_search p s = None.
Proof.
  induction s as [|c s IH]; simpl; intros Hno.
  - by rewrite (Hno [] []).
  - rewrite (Hno [] (c :: s)) by done. apply IH.
    intros pre s' ->. by apply (Hno (c :: pre)).
Qed.

(** [re.search] returns the match at the first position that has one. *)
Lemma re_search_leftmost (p : list node) (pre s : pystr) (m : match_obj) :
  (∀ pre1 pre2, pre = pre1 ++ pre2 → pre2 ≠ [] → match_here p (pre2 ++ s) = None) →
  match_here p s = Some m →
  re_search p (pre ++ s) = Some m.
Proof.
  induction pre as [|c pre IH]; intros Hno Hm.
  - destruct s; simpl; by rewrite Hm.
  - pose proof (Hno [] (c :: pre) eq_refl) as Hc. simpl in *.
    rewrite Hc by done. apply IH; [|done].
    intros pre1 pre2 -> Hne. by apply (Hno (c :: pre1)).
Qed.

End MatcherProperties.

(** ** The shape of the links *)

Section Links.
Context `{UnicodeData}.

Lemma at_end_inv (s : pystr) : at_end s = true → s = [] ∨ s = [10].
Proof.
  unfold at_end. intros Hs. repeat case_match; simplify_eq; auto.
Qed.

Lemma slash_stops_word (s : pystr) :
  head (in_category Word <$> (str "/status/" ++ s)) ≠ Some true.
Proof. done. Qed.

Lemma end_stops_digit (t : pystr) :
  t = [] ∨ t = [10] → head (in_category Digit <$> t) ≠ Some true.
Proof. by intros [->| ->]. Qed.

(** What [valid_link_regex] accepts from the start of a cell: a tweet address
    that ends the cell, or that is followed by one line feed ending it. *)
Lemma valid_link_shape (s : pystr) :
  is_Some (re_match valid_link_regex s) ↔
  ∃ u d t, segment Word u ∧ segment Digit d ∧ (t = [] ∨ t = [10]) ∧
           s = tweet_url u d ++ t.
Proof.
  unfold re_match, valid_link_regex, lit, tweet_url. split.
  - intros [m Hm].
    apply match_here_lit_inv in Hm as (s1 & -> & Hm).
    apply match_here_MaxRepeat_inv in Hm as (u & s2 & -> & Hu1 & Hu2 & Hm).
    apply match_here_lit_inv in Hm as (s3 & -> & Hm).
    apply match_here_MaxRepeat_inv in Hm as (d & t & -> & Hd1 & Hd2 & Hm).
    simpl in Hm. destruct (at_end t) eqn:Ht; [|done].
    exists u, d, t. split_and!; try done.
    + by apply at_end_inv.
    + by rewrite <- !(assoc_L (++)).
  - intros (u & d & t & [Hu1 Hu2] & [Hd1 Hd2] & Ht & ->).
    exists {| groups := []; remainder := t |}.
    rewrite <- !(assoc_L (++)), match_here_lit_app.
    change ([?n] ++ ?p) with (n :: p).
    apply match_here_MaxRepeat_exact; [done|done|apply slash_stops_word|].
    rewrite match_here_lit_app.
    apply match_here_MaxRepeat_exact; [done|done|by apply end_stops_digit|].
    by destruct Ht as [->| ->].
Qed.

(** What [username_regex] accepts from the start of a string, and the group
    it captures. *)
Lemma username_match_inv (s : pystr) (m : match_obj) :
  match_here username_regex s = Some m →
  ∃ u d post, segment Word u ∧ segment Digit d ∧
              s = tweet_url u d ++ post ∧ groups m = [u].
Proof.
  unfold username_regex, lit, tweet_url. intros Hm.
  apply match_here_lit_inv in Hm as (s1 & -> & Hm).
  apply match_here_Subpattern_inv in Hm as (u & s2 & m' & -> & Hu1 & Hu2 & Hm & ->).
  apply match_here_lit_inv in Hm as (s3 & -> & Hm).
  apply match_here_MaxRepeat_inv in Hm as (d & t & -> & Hd1 & Hd2 & Hm).
  simpl in Hm. injection Hm as <-.
  exists u, d, t. split_and!; try done.
  by rewrite <- !(assoc_L (++)).
Qed.

Lemma username_match (u d post : pystr) :
  segment Word u → segment Digit d →
  ∃ m, match_here username_regex (tweet_url u d ++ post) = Some m ∧
       groups m = [u].
Proof.
  unfold username_regex, lit, tweet_url. intros [Hu1 Hu2] [Hd1 Hd2].
  rewrite <- !(assoc_L (++)), match_here_lit_app.
  change ([?n] ++ ?p) with (n :: p).
  destruct d as [|c d]; [done|]. apply Forall_cons in Hd2 as [Hc _].
  eexists. split.
  - apply match_here_Subpattern_exact; [done|done|apply slash_stops_word|].
    rewrite match_here_lit_app. apply match_here_MaxRepeat_last.
    simpl in *. rewrite Hc. lia.
  - done.
Qed.

End Links.

(** ** The link filter *)

Section LinkFilter.
Context `{UnicodeData}.

Lemma inner_loop (w : csv_writer pystr) (row : list pystr) :
  foldl (λ csv_writer link,
           match re_match valid_link_regex link with
           | Some _ => writerow csv_writer [link]
           | None => csv_writer
           end) w row =
  {| delimiter := delimiter w;
     records := records w ++ ((λ link, [link]) <$> filter accepted row) |}.
Proof.
  revert w. induction row as [|link row IH]; intros w; cbn [foldl].
  - rewrite filter_nil, app_nil_r. by destruct w.
  - rewrite IH, filter_cons. destruct (decide (accepted link)) as [[m Hm]|Hn].
    + rewrite Hm. cbn [writerow delimiter records fmap list_fmap].
      by rewrite <- (assoc_L (++)).
    + destruct (re_match valid_link_regex link) eqn:E; [|done].
      exfalso. apply Hn. unfold accepted. rewrite E. eauto.
Qed.

Lemma outer_loop (w : csv_writer pystr) (infile : list (list pystr)) :
  foldl (λ csv_writer row,
           foldl (λ csv_writer link,
                    match re_match valid_link_regex link with
                    | Some _ => writerow csv_writer [link]
                    | None => csv_writer
                    end) csv_writer row) w infile =
  {| delimiter := delimiter w;
     records := records w ++
                ((λ link, [link]) <$> filter accepted (concat infile)) |}.
Proof.
  revert w. induction infile as [|row infile IH]; intros w; cbn [foldl concat].
  - rewrite filter_nil, app_nil_r. by destruct w.
  - rewrite inner_loop, IH. cbn [delimiter records].
    by rewrite filter_app, fmap_app, (assoc_L (++)).
Qed.

Lemma extract_valid_links_eq (infile : list (list pystr)) :
  extract_valid_links infile =
  {| delimiter := N_of_ascii ",";
     records := (λ link, [link]) <$> filter accepted (concat infile) |}.
Proof. unfold extract_valid_links. by rewrite outer_loop. Qed.

Lemma filter_none {A} (P : A → Prop) `{∀ x, Decision (P x)} (l : list A) :
  Forall (λ x, ¬ P x) l → filter P l = [].
Proof.
  induction 1 as [|x l Hx _ IH]; [done|]. by rewrite filter_cons, decide_False.
Qed.

Lemma get_links_from_csv_concat (infile : list (list pystr)) :
  get_links_from_csv infile = concat infile.
Proof.
  unfold get_links_from_csv.
  enough (∀ links, foldl (λ links row, links ++ row) links infile =
                   links ++ concat infile) as Hloop by apply Hloop.
  induction infile as [|row infile IH]; intros links; cbn [foldl concat].
  - by rewrite app_nil_r.
  - by rewrite IH, (assoc_L (++)).
Qed.

Lemma concat_singletons {A} (l : list A) : concat ((λ x, [x]) <$> l) = l.
Proof. induction l as [|x l IH]; cbn; [done|]. by rewrite IH. Qed.

Lemma filter_accepted_idemp (l : list pystr) :
  filter accepted (filter accepted l) = filter accepted l.
Proof.
  induction l as [|x l IH]; [done|].
  rewrite filter_cons. destruct (decide (accepted x)) as [Hx|Hx]; [|done].
  by rewrite filter_cons, decide_True, IH by done.
Qed.

Lemma tweet_url_ends_with_digit (u d : pystr) :
  segment Digit d →
  ∃ c, last (tweet_url u d) = Some c ∧ in_category Digit c = true.
Proof.
  intros [Hne Hd]. unfold tweet_url. rewrite !(assoc_L (++)), last_app.
  destruct (last d) as [c|] eqn:E.
  - exists c. split; [done|]. apply last_Some in E as [d' ->].
    apply Forall_app in Hd as [_ Hc]. exact (Forall_inv Hc).
  - by apply last_None in E.
Qed.

End LinkFilter.

(** ** The username of a link *)

Section Username.
Context `{UnicodeData}.

Lemma extract_username_total (url : pystr) :
  ∃ name, extract_username_from_url url = Ok name.
Proof.
  unfold extract_username_from_url.
  destruct (re_search username_regex url) as [m|] eqn:E; [|eauto].
  apply re_search_Some in E as (pre & s & -> & Hm).
  apply username_match_inv in Hm as (u & d & post & _ & _ & _ & Hg).
  exists u. unfold group. by rewrite Hg.
Qed.

Lemma extract_username_first (url pre u : pystr) :
  tweet_url_at url pre u →
  (∀ pre' u', tweet_url_at url pre' u' → (length pre ≤ length pre')%nat) →
  extract_username_from_url url = Ok u.
Proof.
  intros (d & post & Hu & Hd & ->) Hfirst.
  destruct (username_match u d post Hu Hd) as (m & Hm & Hg).
  unfold extract_username_from_url.
  rewrite (re_search_leftmost _ _ _ m); [unfold group; by rewrite Hg| |done].
  intros pre1 pre2 -> Hne.
  destruct (match_here username_regex (pre2 ++ tweet_url u d ++ post))
    as [m'|] eqn:E; [exfalso|done].
  apply username_match_inv in E as (u' & d' & post' & Hu' & Hd' & E & _).
  assert (tweet_url_at ((pre1 ++ pre2) ++ tweet_url u d ++ post) pre1 u') as Hat.
  { exists d', post'. split_and!; [done|done|]. by rewrite <- (assoc_L (++)), E. }
  apply Hfirst in Hat. rewrite length_app in Hat.
  destruct pre2; [done|]. simpl in Hat. lia.
Qed.

Lemma extract_username_absent (url : pystr) :
  (∀ pre u, ¬ tweet_url_at url pre u) →
  extract_username_from_url url = Ok (str "N/A").
Proof.
  intros Hno. unfold extract_username_from_url.
  rewrite re_search_None; [done|]. intros pre s ->.
  destruct (match_here username_regex s) as [m|] eqn:E; [exfalso|done].
  apply username_match_inv in E as (u & d & post & Hu & Hd & -> & _).
  apply (Hno pre u). by exists d, post.
Qed.

(** A string that starts with a tweet address has the username of that
    address. *)
Lemma extract_username_tweet_url (u d post : pystr) :
  segment Word u → segment Digit d →
  extract_username_from_url (tweet_url u d ++ post) = Ok u.
Proof.
  intros Hu Hd. apply (extract_username_first _ []).
  - by exists d, post.
  - intros; simpl; lia.
Qed.

(** No username is the placeholder: a slash is no word character. *)
Lemma segment_not_NA (u : pystr) : segment Word u → u ≠ str "N/A".
Proof.
  intros [_ Hu] ->. apply Forall_cons in Hu as [_ Hu].
  by apply Forall_cons in Hu as [Hu _].
Qed.

End Username.

(** ** The metadata extractor *)

Section Extractor.
Context `{UnicodeData}.

Lemma xhr_calls_filter (responses : list response) :
  xhr_calls responses = filter (λ r, resource_type r = str "xhr") responses.
Proof.
  unfold xhr_calls.
  enough (∀ acc, foldl intercept_response acc responses =
                 acc ++ filter (λ r, resource_type r = str "xhr") responses)
    as Hacc by apply Hacc.
  induction responses as [|r responses IH]; intros acc; cbn [foldl].
  - by rewrite filter_nil, app_nil_r.
  - rewrite IH, filter_cons. unfold intercept_response.
    rewrite bool_decide_decide.
    destruct (decide (resource_type r = str "xhr")); [|done].
    by rewrite <- (assoc_L (++)).
Qed.

Lemma tweet_calls_none (calls : list response) :
  Forall (λ f, contains marker (url f) = false) calls → tweet_calls calls = [].
Proof.
  unfold tweet_calls. induction 1 as [|f calls Hf _ IH]; [done|].
  rewrite filter_cons, decide_False; [done|]. fold marker. by rewrite Hf.
Qed.

Lemma tweet_calls_first (pre post : list response) (xhr : response) :
  Forall (λ f, contains marker (url f) = false) pre →
  contains marker (url xhr) = true →
  tweet_calls (pre ++ xhr :: post) = xhr :: tweet_calls post.
Proof.
  intros Hpre Hxhr. unfold tweet_calls.
  rewrite filter_app. fold (tweet_calls pre). rewrite tweet_calls_none by done.
  by rewrite filter_cons, decide_True.
Qed.

Lemma tweet_metadata_dict (username : pystr) (legacy : dict) :
  tweet_metadata username (PDict legacy) =
  Ok (dict_of [(str "text", default NA (legacy !! str "full_text"));
               (str "username", PStr username);
               (str "date", default NA (legacy !! str "created_at"));
               (str "comment_count", default NA (legacy !! str "reply_count"));
               (str "like_count", default NA (legacy !! str "favorite_count"));
               (str "share_count", default NA (legacy !! str "retweet_count"))]).
Proof. done. Qed.

Lemma tweet_metadata_inv (username : pystr) (v : pyval) (metadata : dict) :
  tweet_metadata username v = Ok metadata → ∃ legacy, v = PDict legacy.
Proof. destruct v; try done. eauto. Qed.

Lemma first_tweet_call_path (username : pystr) (xhr : response)
    (rest : list response) (data legacy : pyval) :
  json xhr = Ok data → at_path data legacy_path = Some legacy →
  first_tweet_call username (xhr :: rest) = tweet_metadata username legacy.
Proof.
  intros Hjson Hpath. unfold first_tweet_call. rewrite Hjson.
  cbn [mbind result_bind]. unfold legacy_path in Hpath.
  cbn [at_path] in Hpath. unfold subscript.
  repeat (case_match; simplify_option_eq; try done).
Qed.

Lemma first_tweet_call_no_path (username : pystr) (xhr : response)
    (rest : list response) (data : pyval) :
  json xhr = Ok data → at_path data legacy_path = None →
  ∃ e, first_tweet_call username (xhr :: rest) = Raise e.
Proof.
  intros Hjson Hpath. unfold first_tweet_call. rewrite Hjson.
  cbn [mbind result_bind]. unfold legacy_path in Hpath.
  cbn [at_path] in Hpath. unfold subscript.
  repeat (case_match; simplify_option_eq; eauto).
Qed.

End Extractor.

Section Scrape.
Context `{UnicodeData}.

Lemma scrape_loaded (link : pystr) (responses : list response) :
  ∃ username, extract_username_from_url link = Ok username ∧
    scrape_tweet_metadata link (Loaded responses) =
    first_tweet_call username (tweet_calls (xhr_calls responses)).
Proof.
  destruct (extract_username_total link) as [username Hu].
  exists username. split; [done|]. unfold scrape_tweet_metadata. by rewrite Hu.
Qed.

Lemma scrape_failed (link : pystr) (e : exception) :
  scrape_tweet_metadata link (Failed e) = Raise e.
Proof.
  destruct (extract_username_total link) as [username Hu].
  unfold scrape_tweet_metadata. by rewrite Hu.
Qed.

Lemma scrape_returned (link : pystr) (visit : page_visit) (metadata : dict) :
  scrape_tweet_metadata link visit = Ok metadata → returned metadata.
Proof.
  destruct visit as [responses|e]; [|by rewrite scrape_failed].
  destruct (scrape_loaded link responses) as (username & _ & ->).
  destruct (tweet_calls (xhr_calls responses)) as [|xhr rest].
  - intros [= <-]. apply returned_default.
  - unfold first_tweet_call. intros Hm.
    destruct (json xhr) as [data|]; [|done]. cbn [mbind result_bind] in Hm.
    repeat (match type of Hm with
            | context [subscript ?v ?k] =>
                destruct (subscript v k); [|done]; cbn [mbind result_bind] in Hm
            end).
    destruct (tweet_metadata_inv _ _ _ Hm) as [legacy ->].
    by apply (returned_extracted username legacy).
Qed.

Lemma dict_of_cons_truthy (key : pystr) (v : pyval) (items : list (pystr * pyval)) :
  truthy (dict_of ((key, v) :: items)) = true.
Proof.
  unfold truthy, dict_of. apply bool_decide_eq_true.
  cbn [list_to_map foldr]. apply insert_non_empty.
Qed.

Lemma returned_truthy (metadata : dict) : returned metadata → truthy metadata = true.
Proof.
  intros [username legacy metadata' Hm|username].
  - rewrite tweet_metadata_dict in Hm. injection Hm as <-.
    apply dict_of_cons_truthy.
  - apply dict_of_cons_truthy.
Qed.

End Scrape.

(** ** The orchestrator *)

Lemma future_to_link_lookup (links : list pystr) (i : nat) :
  (list_to_map (imap (λ i link, (i, link)) links) : gmap nat pystr) !! i =
  links !! i.
Proof.
  enough (∀ n, (list_to_map (imap (λ i link, (n + i, link)%nat) links)
                : gmap nat pystr) !! (n + i)%nat = links !! i) as Hn
    by apply (Hn 0%nat).
  revert i. induction links as [|link links IH]; intros i n.
  - cbn. by rewrite lookup_empty.
  - rewrite imap_cons. cbn [list_to_map foldr fst snd]. destruct i as [|i].
    + by rewrite Nat.add_0_r, lookup_insert_eq.
    + rewrite lookup_insert_ne by lia.
      replace (n + S i)%nat with (S n + i)%nat by lia.
      change ((link :: links) !! S i) with (links !! i).
      rewrite <- (IH i (S n)). do 2 f_equal. apply imap_ext.
      intros j x _. simpl. f_equal. lia.
Qed.

Lemma omap_lookup_total {A B} (g : A → option B) (l : list A) (k : nat) :
  (∀ x, x ∈ l → is_Some (g x)) → omap g l !! k = l !! k ≫= g.
Proof.
  revert k. induction l as [|x l IH]; intros k Hg; [done|].
  destruct (Hg x) as [y Hy]; [left|]. cbn [omap list_omap]. rewrite Hy.
  destruct k as [|k]; simpl; [done|]. apply IH.
  intros x' Hx'. apply Hg. by right.
Qed.

Lemma omap_total_length {A B} (g : A → option B) (l : list A) :
  (∀ x, x ∈ l → is_Some (g x)) → length (omap g l) = length l.
Proof.
  induction l as [|x l IH]; intros Hg; [done|].
  destruct (Hg x) as [y Hy]; [left|]. cbn [omap list_omap]. rewrite Hy.
  simpl. f_equal. apply IH. intros x' Hx'. apply Hg. by right.
Qed.

Lemma recorded_fst (link : pystr) (r : result dict) : (recorded link r).1 = link.
Proof. by destruct r. Qed.

Section Orchestrator.
Context `{UnicodeData}.

Lemma collect_recorded (future_to_link : gmap nat pystr)
    (results : list (pystr * dict)) (f : future) (link : pystr) :
  future_to_link !! fut_id f = Some link →
  collect future_to_link results f = Ok (results ++ [recorded link (fut_result f)]).
Proof.
  intros Hl. unfold collect. rewrite Hl. cbn [mbind result_bind].
  by destruct (fut_result f).
Qed.

Lemma scrape_all_tweets_entries (browse : nat → page_visit) (order : list nat)
    (links : list pystr) :
  scrape_all_tweets browse order links = Ok (omap (entry browse links) order).
Proof.
  unfold scrape_all_tweets.
  set (ftl := list_to_map _ : gmap nat pystr).
  set (futures := imap _ links).
  enough (∀ results,
    for_completed ftl (omap (λ i, futures !! i) order) results =
    Ok (results ++ omap (entry browse links) order)) as Hloop by apply Hloop.
  induction order as [|i order IH]; intros results.
  - by rewrite app_nil_r.
  - cbn [omap list_omap]. unfold futures at 1. rewrite list_lookup_imap.
    unfold entry at 1. destruct (links !! i) as [link|] eqn:Hi; cbn [fmap option_fmap option_map].
    + cbn [for_completed]. rewrite (collect_recorded _ _ _ link).
      * cbn [mbind result_bind fut_result]. rewrite IH.
        by rewrite <- (assoc_L (++)).
      * unfold ftl. by rewrite future_to_link_lookup.
    + apply IH.
Qed.

Lemma entry_is_Some (browse : nat → page_visit) (order : list nat)
    (links : list pystr) :
  order ≡ₚ seq 0 (length links) →
  ∀ i, i ∈ order → is_Some (entry browse links i).
Proof.
  intros Hperm i Hi. rewrite Hperm in Hi. apply elem_of_seq in Hi.
  unfold entry. destruct (lookup_lt_is_Some_2 links i) as [link ->]; [lia|].
  eauto.
Qed.

Lemma recorded_outcome (link : pystr) (visit : page_visit) :
  outcome (recorded link (scrape_tweet_metadata link visit)).2.
Proof.
  unfold recorded.
  destruct (scrape_tweet_metadata link visit) as [metadata|e] eqn:E; simpl.
  - destruct (truthy metadata); [|apply outcome_error].
    destruct (scrape_returned _ _ _ E) as [username legacy metadata Hm|username].
    + by apply (outcome_metadata username legacy).
    + apply outcome_default.
  - apply outcome_error.
Qed.

Lemma omap_entry_nil (browse : nat → page_visit) (order : list nat) :
  omap (entry browse []) order = [].
Proof. by induction order. Qed.

Lemma entry_fst (browse : nat → page_visit) (links : list pystr) (i : nat) :
  fst <$> entry browse links i = links !! i.
Proof.
  unfold entry. destruct (links !! i) as [link|]; [|done].
  simpl. by rewrite recorded_fst.
Qed.

Lemma entries_in_link_order (browse : nat → page_visit) (links : list pystr) :
  (omap (entry browse links) (seq 0 (length links))).*1 = links.
Proof.
  apply list_eq. intros k. rewrite list_lookup_fmap, omap_lookup_total.
  - destruct (decide (k < length links)%nat) as [Hk|Hk].
    + rewrite lookup_seq_lt by done. simpl. apply entry_fst.
    + rewrite lookup_seq_ge, lookup_ge_None_2 by lia. done.
  - intros i Hi. by apply (entry_is_Some browse (seq 0 (length links))).
Qed.

End Orchestrator.

(** ** The result writer *)

(** The fields of a metadata dict display, one by one. *)
Lemma dict_of_fields (v1 v2 v3 v4 v5 v6 : pyval) :
  let d := dict_of [(str "text", v1); (str "username", v2); (str "date", v3);
                    (str "comment_count", v4); (str "like_count", v5);
                    (str "share_count", v6)] in
  d !! str "text" = Some v1 ∧ d !! str "username" = Some v2 ∧
  d !! str "date" = Some v3 ∧ d !! str "comment_count" = Some v4 ∧
  d !! str "like_count" = Some v5 ∧ d !! str "share_count" = Some v6 ∧
  d !! str "error" = None.
Proof. by vm_compute. Qed.

Lemma error_dict_fields (msg : pystr) :
  let d := error_dict msg in
  d !! str "error" = Some (PStr msg) ∧
  d !! str "text" = None ∧ d !! str "username" = None ∧
  d !! str "date" = None ∧ d !! str "comment_count" = None ∧
  d !! str "like_count" = None ∧ d !! str "share_count" = None.
Proof. by vm_compute. Qed.

Lemma save_results_to_csv_eq (results : list (pystr * dict)) :
  save_results_to_csv results =
  {| delimiter := N_of_ascii ";"; records := header :: (data_row <$> results) |}.
Proof.
  unfold save_results_to_csv.
  enough (∀ w : csv_writer pyval,
    foldl (λ csv_writer '(link, metadata),
             writerow csv_writer
               [PStr link;
                get_or_NA metadata (str "text");
                get_or_NA metadata (str "username");
                get_or_NA metadata (str "date");
                get_or_NA metadata (str "comment_count");
                get_or_NA metadata (str "like_count");
                get_or_NA metadata (str "share_count")]) w results =
    {| delimiter := delimiter w; records := records w ++ (data_row <$> results) |})
    as Hloop by apply Hloop.
  induction results as [|[link metadata] results IH]; intros w; cbn [foldl].
  - rewrite app_nil_r. by destruct w.
  - rewrite IH. cbn [writerow delimiter records fmap list_fmap].
    by rewrite <- (assoc_L (++)).
Qed.

Lemma data_row_error (link msg : pystr) :
  data_row (link, error_dict msg) = [PStr link; NA; NA; NA; NA; NA; NA].
Proof.
  destruct (error_dict_fields msg) as (_ & H1 & H2 & H3 & H4 & H5 & H6).
  unfold data_row. cbn [fst snd]. by rewrite H1, H2, H3, H4, H5, H6.
Qed.

Lemma data_row_default (link username : pystr) :
  data_row (link, default_metadata username) =
  [PStr link; NA; PStr username; NA; NA; NA; NA].
Proof.
  destruct (dict_of_fields NA (PStr username) NA NA NA NA)
    as (H1 & H2 & H3 & H4 & H5 & H6 & _).
  unfold data_row, default_metadata. cbn [fst snd].
  by rewrite H1, H2, H3, H4, H5, H6.
Qed.

(** * Main theorems *)

Section MainTheorems.
Context `{UnicodeData}.

(** C1: for every list of N links, [scrape_all_tweets] returns N entries,
    one per input link whatever the order in which the futures complete:
    the entry at the position where the future of link [i] completed pairs
    that link with successful metadata, with the default record, or with an
    error descriptor. *)
Theorem scrape_all_tweets_one_entry_per_link (browse : nat → page_visit)
    (order : list nat) (links : list pystr) :
  order ≡ₚ seq 0 (length links) →
  ∃ results,
    scrape_all_tweets browse order links = Ok results ∧
    length results = length links ∧
    results.*1 ≡ₚ links ∧
    (∀ k i, order !! k = Some i → fst <$> results !! k = links !! i) ∧
    Forall (λ entry, outcome entry.2) results.
Proof.
  intros Hperm. pose proof (entry_is_Some browse order links Hperm) as Hsome.
  exists (omap (entry browse links) order). split_and!.
  - apply scrape_all_tweets_entries.
  - rewrite omap_total_length by done.
    by rewrite Hperm, length_seq.
  - rewrite Hperm. by rewrite entries_in_link_order.
  - intros k i Hk. rewrite omap_lookup_total, Hk by done. apply entry_fst.
  - apply Forall_forall. intros e He.
    apply list_elem_of_omap in He as (i & _ & He). unfold entry in He.
    destruct (links !! i) as [link|]; [|done]. injection He as <-.
    apply recorded_outcome.
Qed.

(** C3: when [_xhr_calls] holds a response whose address contains
    the marker, the first such response alone decides the outcome, whatever
    follows it.  If its payload decodes and data → tweetResult → result →
    legacy leads through dicts to a dict, the six-field record is returned,
    each payload field being the value at its key or "N/A" when the key is
    absent; if [json()] raises, or the path is missing or does not end in a
    dict, the extractor raises instead of returning. *)
Theorem first_tweet_call_decides (link : pystr)
    (responses pre post : list response) (xhr : response) :
  xhr_calls responses = pre ++ xhr :: post →
  Forall (λ f, contains marker (url f) = false) pre →
  contains marker (url xhr) = true →
  ∃ username,
    extract_username_from_url link = Ok username ∧
    match json xhr with
    | Raise e => scrape_tweet_metadata link (Loaded responses) = Raise e
    | Ok data =>
        match at_path data legacy_path with
        | Some (PDict legacy) =>
            scrape_tweet_metadata link (Loaded responses) =
            Ok (dict_of
                  [(str "text", default NA (legacy !! str "full_text"));
                   (str "username", PStr username);
                   (str "date", default NA (legacy !! str "created_at"));
                   (str "comment_count", default NA (legacy !! str "reply_count"));
                   (str "like_count", default NA (legacy !! str "favorite_count"));
                   (str "share_count", default NA (legacy !! str "retweet_count"))])
        | _ => ∃ e, scrape_tweet_metadata link (Loaded responses) = Raise e
        end
    end.
Proof.
  intros Hcalls Hpre Hxhr.
  destruct (scrape_loaded link responses) as (username & Hu & ->).
  exists username. split; [done|].
  rewrite Hcalls, tweet_calls_first by done.
  destruct (json xhr) as [data|e] eqn:Hjson.
  - destruct (at_path data legacy_path) as [legacy|] eqn:Hpath.
    + rewrite (first_tweet_call_path _ _ _ data legacy) by done.
      destruct legacy; eauto using tweet_metadata_dict.
    + by apply (first_tweet_call_no_path _ _ _ data).
  - unfold first_tweet_call. by rewrite Hjson.
Qed.

(** C4: when no response of [_xhr_calls] has the marker in its address, the
    extractor returns the record whose fields are all "N/A" except
    [username], which is the one derived from the link: "alice" for
    https://x.com/alice/status/12345. *)
Theorem no_tweet_call_default (link : pystr) (responses : list response) :
  Forall (λ f, contains marker (url f) = false) (xhr_calls responses) →
  ∃ username,
    extract_username_from_url link = Ok username ∧
    scrape_tweet_metadata link (Loaded responses) =
    Ok (dict_of [(str "text", PStr (str "N/A"));
                 (str "username", PStr username);
                 (str "date", PStr (str "N/A"));
                 (str "comment_count", PStr (str "N/A"));
                 (str "like_count", PStr (str "N/A"));
                 (str "share_count", PStr (str "N/A"))]) ∧
    (link = str "https://x.com/alice/status/12345" → username = str "alice").
Proof.
  intros Hnone.
  destruct (scrape_loaded link responses) as (username & Hu & ->).
  exists username. split_and!; [done| |].
  - by rewrite tweet_calls_none.
  - intros ->.
    assert (extract_username_from_url (str "https://x.com/alice/status/12345")
            = Ok (str "alice")) as Halice by by vm_compute.
    congruence.
Qed.


(** C10: the fallback of the orchestrator is dead code.  Whatever the
    extractor returns is a non-empty dict, so the entry of a task that
    returned holds the extractor's own dict, and no entry of the result list
    is the descriptor "Could not scrape". *)
Theorem could_not_scrape_unreachable (browse : nat → page_visit)
    (order : list nat) (links : list pystr) :
  (∀ link visit metadata,
     scrape_tweet_metadata link visit = Ok metadata → truthy metadata = true) ∧
  ∃ results,
    scrape_all_tweets browse order links = Ok results ∧
    (∀ i link metadata,
       i ∈ order → links !! i = Some link →
       scrape_tweet_metadata link (browse i) = Ok metadata →
       (link, metadata) ∈ results) ∧
    (∀ link d, (link, d) ∈ results → d ≠ error_dict (str "Could not scrape")).
Proof.
  assert (∀ link visit metadata,
    scrape_tweet_metadata link visit = Ok metadata → truthy metadata = true)
    as Htruthy.
  { intros link visit metadata Hm. eapply returned_truthy, scrape_returned, Hm. }
  split; [done|].
  exists (omap (entry browse links) order). split_and!.
  - apply scrape_all_tweets_entries.
  - intros i link metadata Hi Hlink Hm. apply list_elem_of_omap.
    exists i. split; [done|]. unfold entry. rewrite Hlink. simpl.
    rewrite Hm. unfold recorded. by rewrite (Htruthy _ _ _ Hm).
  - intros link d Hd Heq.
    apply list_elem_of_omap in Hd as (i & _ & Hd). unfold entry in Hd.
    destruct (links !! i) as [link'|]; [|done]. simpl in Hd.
    injection Hd as Hd. unfold recorded in Hd.
    destruct (error_dict_fields (str "Could not scrape")) as (Herr & Htext & _).
    destruct (scrape_tweet_metadata link' (browse i)) as [metadata|e] eqn:E.
    + rewrite (Htruthy _ _ _ E) in Hd. injection Hd as _ ->.
      rewrite <- Heq in Htext.
      destruct (scrape_returned _ _ _ E) as [username legacy metadata Hm|username].
      * rewrite tweet_metadata_dict in Hm. injection Hm as <-.
        by rewrite (proj1 (dict_of_fields _ _ _ _ _ _)) in Htext.
      * unfold default_metadata in Htext.
        by rewrite (proj1 (dict_of_fields _ _ _ _ _ _)) in Htext.
    + injection Hd as _ <-. rewrite <- Heq in Herr.
      rewrite (proj1 (error_dict_fields _)) in Herr.
      injection Herr as Herr. by vm_compute in Herr.
Qed.

(** C2, the trailing line feed: a cell made of a tweet address and one
    trailing line feed is not of the form the pattern describes from end to
    end, and the filter writes it all the same. *)
Theorem extract_valid_links_keeps_line_feed :
  let cell := str "https://x.com/a/status/1" ++ [10] in
  records (extract_valid_links [[cell; str "not a link"]]) = [[cell]] ∧
  ¬ ∃ u d, segment Word u ∧ segment Digit d ∧ cell = tweet_url u d.
Proof.
  split; [by vm_compute|].
  intros (u & d & _ & Hd & E).
  destruct (tweet_url_ends_with_digit u d Hd) as (c & Hlast & Hc).
  rewrite <- E, last_snoc in Hlast. by injection Hlast as <-.
Qed.

(** X1: what the link filter writes, exactly: one record of one field for each
    accepted cell of the input, in the order the cells are read, the rest
    being dropped; and a cell is accepted when it is a tweet address
    https://x.com/<\w+>/status/<\d+>, alone or followed by one line feed that
    ends the cell. *)
Theorem extract_valid_links_exact (infile : list (list pystr)) :
  records (extract_valid_links infile) =
    (λ link, [link]) <$> filter accepted (concat infile) ∧
  ∀ cell, accepted cell ↔
    ∃ u d t, segment Word u ∧ segment Digit d ∧ (t = [] ∨ t = [10]) ∧
             cell = tweet_url u d ++ t.
Proof.
  split; [by rewrite extract_valid_links_eq|]. intros cell. apply valid_link_shape.
Qed.

(** C8: the link filter is idempotent.  Run on the records of its own
    output, it writes the same output again: every link re-validates and is
    written unchanged, in the same order. *)
Theorem extract_valid_links_idempotent (infile : list (list pystr)) :
  extract_valid_links (records (extract_valid_links infile)) =
  extract_valid_links infile.
Proof.
  rewrite !extract_valid_links_eq. cbn [records].
  by rewrite concat_singletons, filter_accepted_idemp.
Qed.

(** C7: [extract_username_from_url] is total and never raises.  When the
    tweet-address pattern https://x.com/<\w+>/status/<\d+> occurs in the
    URL, it returns the [\w+] segment between the host and [/status/], the
    one of the leftmost occurrence; when the pattern does not occur, it
    returns "N/A".  For https://x.com/alice/status/12345 it returns
    "alice". *)
Theorem extract_username_from_url_spec (url : pystr) :
  (∃ name, extract_username_from_url url = Ok name) ∧
  (∀ pre u,
     tweet_url_at url pre u →
     (∀ pre' u', tweet_url_at url pre' u' → (length pre ≤ length pre')%nat) →
     extract_username_from_url url = Ok u) ∧
  ((∀ pre u, ¬ tweet_url_at url pre u) →
   extract_username_from_url url = Ok (str "N/A")) ∧
  extract_username_from_url (str "https://x.com/alice/status/12345") =
  Ok (str "alice").
Proof.
  split_and!.
  - apply extract_username_total.
  - apply extract_username_first.
  - apply extract_username_absent.
  - by vm_compute.
Qed.


(** C9: a result whose outcome is an error descriptor is written as
    the link followed by six "N/A" fields, whatever the descriptor says.
    That row is the row of the default record of the same link exactly when
    no username can be derived from the link; a link that holds a tweet
    address has a username, and the two rows differ in the Username
    column. *)
Theorem error_entry_row (results : list (pystr * dict)) (k : nat)
    (link msg : pystr) :
  results !! k = Some (link, error_dict msg) →
  let na := PStr (str "N/A") in
  records (save_results_to_csv results) !! S k =
    Some [PStr link; na; na; na; na; na; na] ∧
  ∀ username,
    extract_username_from_url link = Ok username →
    records (save_results_to_csv [(link, default_metadata username)]) !! 1%nat =
      Some [PStr link; na; PStr username; na; na; na; na] ∧
    ([PStr link; na; PStr username; na; na; na; na] =
     [PStr link; na; na; na; na; na; na] ↔ username = str "N/A") ∧
    (∀ u d post, segment Word u → segment Digit d →
                 link = tweet_url u d ++ post →
                 username = u ∧ username ≠ str "N/A").
Proof.
  intros Hk na. rewrite !save_results_to_csv_eq. cbn [records]. split.
  - change ((header :: ?l) !! S k) with (l !! k).
    rewrite list_lookup_fmap, Hk. cbn [fmap option_fmap option_map].
    by rewrite data_row_error.
  - intros username Hu. split_and!.
    + rewrite save_results_to_csv_eq. cbn [records fmap list_fmap].
      by rewrite data_row_default.
    + split; [by intros [= ->]|by intros ->].
    + intros u d post Hw Hd ->.
      rewrite extract_username_tweet_url in Hu by done. injection Hu as <-.
      split; [done|by apply segment_not_NA].
Qed.

(** X2: the whole script on an input without any accepted cell (an empty
    input file, or rows such as "not a link"): no link reaches the
    orchestrator, and the output file holds the header row only. *)
Theorem main_without_links (input_csv : list (list pystr))
    (browse : nat → page_visit) (order : list nat) :
  Forall (λ cell, ¬ accepted cell) (concat input_csv) →
  records (extract_valid_links input_csv) = [] ∧
  main input_csv browse order =
  Ok {| delimiter := N_of_ascii ";"; records := [header] |}.
Proof.
  intros Hnone.
  assert (records (extract_valid_links input_csv) = []) as Hcleaned.
  { rewrite extract_valid_links_eq. cbn [records].
    by rewrite filter_none. }
  split; [done|]. unfold main. rewrite Hcleaned.
  change (get_links_from_csv []) with (@nil pystr).
  rewrite scrape_all_tweets_entries, omap_entry_nil. done.
Qed.

End MainTheorems.

(** * The script on concrete inputs *)

Section Runs.
#[local] Existing Instance latin1.

Lemma scrape_all_tweets_one_entry_per_link_run :
  [1; 0]%nat ≡ₚ seq 0 (length [alice; bob]) ∧
  ∃ results,
    scrape_all_tweets second_fails [1; 0]%nat [alice; bob] = Ok results ∧
    length results = length [alice; bob] ∧
    results.*1 ≡ₚ [alice; bob] ∧
    (∀ k i, [1; 0]%nat !! k = Some i →
            fst <$> results !! k = [alice; bob] !! i) ∧
    Forall (λ entry, outcome entry.2) results.
Proof.
  assert ([1; 0]%nat ≡ₚ seq 0 (length [alice; bob])) as Hperm
    by apply perm_swap.
  split; [exact Hperm|].
  exact (scrape_all_tweets_one_entry_per_link second_fails _ _ Hperm).
Defined.

Lemma first_tweet_call_decides_run :
  xhr_calls [stylesheet; other_call; tweet_call; late_call] =
    [other_call] ++ tweet_call :: [late_call] ∧
  scrape_tweet_metadata alice
    (Loaded [stylesheet; other_call; tweet_call; late_call]) =
  Ok (dict_of [(str "text", PStr (str "hello"));
               (str "username", PStr (str "alice"));
               (str "date", PStr (str "N/A"));
               (str "comment_count", PStr (str "N/A"));
               (str "like_count", PInt 3);
               (str "share_count", PStr (str "N/A"))]).
Proof.
  assert (xhr_calls [stylesheet; other_call; tweet_call; late_call] =
          [other_call] ++ tweet_call :: [late_call]) as Hcalls by by vm_compute.
  split; [exact Hcalls|].
  destruct (first_tweet_call_decides alice _ _ _ _ Hcalls) as (username & Hu & Hm).
  - by repeat constructor.
  - by vm_compute.
  - vm_compute in Hu. injection Hu as <-.
    vm_compute in Hm. vm_compute. exact Hm.
Defined.

(** C3, a run that raises: the only tweet call has a payload without the key
    "data", and the extractor raises [KeyError] instead of returning a
    record. *)
Lemma first_tweet_call_without_data :
  xhr_calls [empty_call] = [empty_call] ∧
  contains marker (url empty_call) = true ∧
  scrape_tweet_metadata alice (Loaded [empty_call]) =
  Raise (KeyError (str "data")).
Proof. by vm_compute. Qed.

Lemma no_tweet_call_default_run :
  Forall (λ f, contains marker (url f) = false)
         (xhr_calls [stylesheet; other_call]) ∧
  scrape_tweet_metadata alice (Loaded [stylesheet; other_call]) =
  Ok (dict_of [(str "text", PStr (str "N/A"));
               (str "username", PStr (str "alice"));
               (str "date", PStr (str "N/A"));
               (str "comment_count", PStr (str "N/A"));
               (str "like_count", PStr (str "N/A"));
               (str "share_count", PStr (str "N/A"))]).
Proof.
  assert (Forall (λ f, contains marker (url f) = false)
                 (xhr_calls [stylesheet; other_call])) as Hnone.
  { change (xhr_calls [stylesheet; other_call]) with [other_call].
    by repeat constructor. }
  split; [exact Hnone|].
  destruct (no_tweet_call_default alice _ Hnone) as (username & _ & Hm & Halice).
  by rewrite (Halice eq_refl) in Hm.
Defined.


Lemma error_entry_row_run :
  let na := PStr (str "N/A") in
  records (save_results_to_csv
             [(alice, default_metadata (str "alice"));
              (bob, error_dict (str "Error: Timeout 30000ms exceeded."))])
    !! 2%nat =
  Some [PStr bob; na; na; na; na; na; na].
Proof.
  exact (proj1 (error_entry_row
                  [(alice, default_metadata (str "alice"));
                   (bob, error_dict (str "Error: Timeout 30000ms exceeded."))]
                  1 bob _ eq_refl)).
Defined.

(** C9, two rows that differ: for the same link, the row of the errored outcome
    and the row of the outcome without any tweet call differ in the Username
    column. *)
Lemma error_row_differs_from_default_row :
  let na := PStr (str "N/A") in
  scrape_tweet_metadata alice (Loaded []) = Ok (default_metadata (str "alice")) ∧
  records (save_results_to_csv [(alice, default_metadata (str "alice"))]) =
    [header; [PStr alice; na; PStr (str "alice"); na; na; na; na]] ∧
  records (save_results_to_csv [(alice, error_dict (str "Error: boom"))]) =
    [header; [PStr alice; na; na; na; na; na; na]] ∧
  [PStr alice; na; PStr (str "alice"); na; na; na; na] ≠
  [PStr alice; na; na; na; na; na; na].
Proof. split_and!; [by vm_compute..|]. intros E. by vm_compute in E. Qed.

Lemma main_without_links_run :
  Forall (λ cell, ¬ accepted cell) (concat [[str "not a link"; []]; []]) ∧
  main [[str "not a link"; []]; []] both_load [] =
  Ok {| delimiter := N_of_ascii ";"; records := [header] |}.
Proof.
  assert (Forall (λ cell, ¬ accepted cell)
                 (concat [[str "not a link"; []]; []])) as Hnone.
  { repeat constructor; by intros [m Hm]. }
  split; [exact Hnone|].
  exact (proj2 (main_without_links _ both_load [] Hnone)).
Defined.

End Runs.

(** * Further properties of the script *)

Lemma filter_filter_same {A} (P : A → Prop) `{∀ x, Decision (P x)} (l : list A) :
  filter P (filter P l) = filter P l.
Proof.
  induction l as [|x l IH]; [done|].
  rewrite filter_cons. destruct (decide (P x)) as [Hx|Hx]; [|done].
  by rewrite filter_cons, decide_True, IH by done.
Qed.

Section Further.
Context `{UnicodeData}.

Lemma re_search_None_inv (p : list node) (s : pystr) :
  re_search p s = None → ∀ pre s', s = pre ++ s' → match_here p s' = None.
Proof.
  induction s as [|c s IH]; simpl.
  - destruct (match_here p []) eqn:E; [done|].
    intros _ pre s' Hs. symmetry in Hs. apply app_eq_nil in Hs as [_ ->]. done.
  - destruct (match_here p (c :: s)) eqn:E; [done|].
    intros Hs [|x pre] s' Hpre; simpl in Hpre.
    + by subst.
    + injection Hpre as -> ->. by apply (IH Hs pre).
Qed.

(** No character of the classes is a comma, a double quote, a carriage
    return, a line feed or a space. *)
Lemma in_category_plain (k : category) (c : N) :
  in_category k c = true → c ≠ 44 ∧ c ≠ 34 ∧ c ≠ 13 ∧ c ≠ 10 ∧ c ≠ 32.
Proof.
  intros Hc. split_and!; intros ->; by destruct k.
Qed.

(** X3: the interceptor keeps the responses whose request has the resource
    type "xhr", in arrival order, and nothing else; a response of any other
    type has no effect on what [scrape_tweet_metadata] returns or raises,
    whatever its address and payload. *)
Theorem other_resource_types_ignored (link : pystr) (responses : list response) :
  xhr_calls responses = filter (λ r, resource_type r = str "xhr") responses ∧
  scrape_tweet_metadata link (Loaded responses) =
  scrape_tweet_metadata link
    (Loaded (filter (λ r, resource_type r = str "xhr") responses)).
Proof.
  split; [apply xhr_calls_filter|].
  unfold scrape_tweet_metadata.
  by rewrite !xhr_calls_filter, filter_filter_same.
Qed.

(** X4: [get_links_from_csv] flattens the rows of a file in order (no row,
    no link).  Read back from the file the filter wrote, it returns the
    accepted cells of the raw file, in the order they were read; and any list
    of links written one per record is loaded back unchanged. *)
Theorem cleaned_links_round_trip (infile : list (list pystr)) :
  get_links_from_csv infile = concat infile ∧
  get_links_from_csv (records (extract_valid_links infile)) =
    filter accepted (concat infile) ∧
  ∀ links : list pystr, get_links_from_csv ((λ link, [link]) <$> links) = links.
Proof.
  split_and!.
  - apply get_links_from_csv_concat.
  - rewrite get_links_from_csv_concat, extract_valid_links_eq. cbn [records].
    apply concat_singletons.
  - intros links. rewrite get_links_from_csv_concat. apply concat_singletons.
Qed.

(** X5: every cell the link filter accepts has a username: on it
    [extract_username_from_url] returns the [\w+] segment of the address,
    which is never the placeholder "N/A". *)
Theorem accepted_link_has_username (link : pystr) :
  accepted link →
  ∃ u d t, link = tweet_url u d ++ t ∧ segment Word u ∧
           extract_username_from_url link = Ok u ∧ u ≠ str "N/A".
Proof.
  intros Ha. apply valid_link_shape in Ha as (u & d & t & Hu & Hd & _ & ->).
  exists u, d, t. split_and!; [done|done| |by apply segment_not_NA].
  by apply extract_username_tweet_url.
Qed.

(** X12: the username [extract_username_from_url] returns is unambiguous.
    It is "N/A" exactly when the tweet-address pattern occurs nowhere in the
    URL; otherwise it is a non-empty run of word characters that stands
    between the host and [/status/] at some place of the URL. *)
Theorem username_unambiguous (url : pystr) :
  ∃ name,
    extract_username_from_url url = Ok name ∧
    (name = str "N/A" ↔ ∀ pre u, ¬ tweet_url_at url pre u) ∧
    (name ≠ str "N/A" → segment Word name ∧ ∃ pre, tweet_url_at url pre name).
Proof.
  unfold extract_username_from_url.
  destruct (re_search username_regex url) as [m|] eqn:E.
  - apply re_search_Some in E as (pre & s & -> & Hm).
    apply username_match_inv in Hm as (u & d & post & Hu & Hd & -> & Hg).
    assert (tweet_url_at (pre ++ tweet_url u d ++ post) pre u) as Hat
      by by exists d, post.
    exists u. unfold group. rewrite Hg. split_and!; [done| |by eauto].
    split.
    + intros ->. by apply segment_not_NA in Hu.
    + intros Hno. by apply Hno in Hat.
  - exists (str "N/A"). split_and!; [done| |done].
    split; [|done]. intros _ pre u (d & post & Hu & Hd & ->).
    destruct (username_match u d post Hu Hd) as (m & Hm & _).
    by rewrite (re_search_None_inv _ _ E pre _ eq_refl) in Hm.
Qed.

(** X13: an accepted cell is plain text for a CSV file.  It starts with
    https://x.com/ and, a line feed that may end it apart, it holds no comma,
    no double quote, no carriage return, no line feed and no space. *)
Theorem accepted_link_is_plain (link : pystr) :
  accepted link →
  ∃ body t,
    link = str "https://x.com/" ++ body ++ t ∧ (t = [] ∨ t = [10]) ∧
    Forall (λ c, c ≠ 44 ∧ c ≠ 34 ∧ c ≠ 13 ∧ c ≠ 10 ∧ c ≠ 32) body.
Proof.
  intros Ha. apply valid_link_shape in Ha as (u & d & t & [_ Hu] & [_ Hd] & Ht & ->).
  exists (u ++ str "/status/" ++ d), t. unfold tweet_url. split_and!.
  - by rewrite <- !(assoc_L (++)).
  - done.
  - rewrite !Forall_app. split_and!.
    + eapply Forall_impl; [exact Hu|]. intros c. apply in_category_plain.
    + by repeat constructor.
    + eapply Forall_impl; [exact Hd|]. intros c. apply in_category_plain.
Qed.

Lemma scrape_returned_username (link : pystr) (visit : page_visit)
    (metadata : dict) :
  scrape_tweet_metadata link visit = Ok metadata →
  ∃ username,
    extract_username_from_url link = Ok username ∧
    (metadata = default_metadata username ∨
     ∃ legacy, tweet_metadata username (PDict legacy) = Ok metadata).
Proof.
  destruct visit as [responses|e]; [|by rewrite scrape_failed].
  destruct (scrape_loaded link responses) as (username & Hu & ->).
  intros Hm. exists username. split; [done|].
  destruct (tweet_calls (xhr_calls responses)) as [|xhr rest].
  - left. by injection Hm as <-.
  - right. unfold first_tweet_call in Hm.
    destruct (json xhr) as [data|]; [|done]. cbn [mbind result_bind] in Hm.
    repeat (match type of Hm with
            | context [subscript ?v ?k] =>
                destruct (subscript v k); [|done]; cbn [mbind result_bind] in Hm
            end).
    destruct (tweet_metadata_inv _ _ _ Hm) as [legacy ->]. eauto.
Qed.

Lemma six_fields_dom (v1 v2 v3 v4 v5 v6 : pyval) :
  dom (dict_of [(str "text", v1); (str "username", v2); (str "date", v3);
                (str "comment_count", v4); (str "like_count", v5);
                (str "share_count", v6)]) =@{gset pystr}
  list_to_set [str "text"; str "username"; str "date"; str "comment_count";
               str "like_count"; str "share_count"].
Proof. unfold dict_of. by rewrite dom_list_to_map_L. Qed.

(** X6: whatever [scrape_tweet_metadata] returns has exactly the six keys
    text, username, date, comment_count, like_count and share_count (so never
    the key error), and its username is the one derived from the link, be the
    record extracted from a payload or the default one. *)
Theorem returned_record_shape (link : pystr) (visit : page_visit)
    (metadata : dict) :
  scrape_tweet_metadata link visit = Ok metadata →
  ∃ username,
    extract_username_from_url link = Ok username ∧
    metadata !! str "username" = Some (PStr username) ∧
    metadata !! str "error" = None ∧
    dom metadata =@{gset pystr}
    list_to_set [str "text"; str "username"; str "date"; str "comment_count";
                 str "like_count"; str "share_count"].
Proof.
  intros Hm.
  destruct (scrape_returned_username _ _ _ Hm) as (username & Hu & Hshape).
  exists username. split; [done|].
  destruct Hshape as [->|[legacy Hl]].
  - unfold default_metadata.
    destruct (dict_of_fields NA (PStr username) NA NA NA NA)
      as (_ & Hname & _ & _ & _ & _ & Herr).
    split_and!; [done|done|apply six_fields_dom].
  - rewrite tweet_metadata_dict in Hl. injection Hl as <-.
    destruct (dict_of_fields (default NA (legacy !! str "full_text"))
                (PStr username) (default NA (legacy !! str "created_at"))
                (default NA (legacy !! str "reply_count"))
                (default NA (legacy !! str "favorite_count"))
                (default NA (legacy !! str "retweet_count")))
      as (_ & Hname & _ & _ & _ & _ & Herr).
    split_and!; [done|done|apply six_fields_dom].
Qed.

Lemma first_tweet_call_raises (link : pystr) (responses : list response)
    (xhr : response) (rest : list response) (e : exception) :
  tweet_calls (xhr_calls responses) = xhr :: rest →
  (∀ username, first_tweet_call username (xhr :: rest) = Raise e) →
  scrape_tweet_metadata link (Loaded responses) = Raise e.
Proof.
  intros Hcalls Hraise.
  destruct (scrape_loaded link responses) as (username & _ & ->).
  by rewrite Hcalls.
Qed.

(** X7: what a bad payload of the first tweet call raises.  On the way
    data → tweetResult → result → legacy, a dict that lacks the next key
    raises [KeyError] with that key, and a value that is no dict raises
    [TypeError]; a legacy value that is no dict raises [AttributeError] at the
    first [get]. *)
Theorem bad_payload_exceptions (link : pystr) (responses : list response)
    (xhr : response) (rest : list response) (data : pyval) :
  tweet_calls (xhr_calls responses) = xhr :: rest →
  json xhr = Ok data →
  (∀ keys key keys' d,
     legacy_path = keys ++ key :: keys' →
     at_path data keys = Some (PDict d) → d !! key = None →
     scrape_tweet_metadata link (Loaded responses) = Raise (KeyError key)) ∧
  (∀ keys key keys' v,
     legacy_path = keys ++ key :: keys' →
     at_path data keys = Some v → (∀ d, v ≠ PDict d) →
     ∃ msg, scrape_tweet_metadata link (Loaded responses) = Raise (TypeError msg)) ∧
  (∀ v,
     at_path data legacy_path = Some v → (∀ d, v ≠ PDict d) →
     ∃ msg,
       scrape_tweet_metadata link (Loaded responses) = Raise (AttributeError msg)).
Proof.
  intros Hcalls Hjson. split_and!.
  - intros keys key keys' d Hpath Hat Hkey.
    apply (first_tweet_call_raises _ _ _ _ _ Hcalls). intros username.
    unfold first_tweet_call. rewrite Hjson. cbn [mbind result_bind].
    unfold legacy_path in Hpath.
    destruct keys as [|k1 [|k2 [|k3 [|k4 keys]]]]; simplify_eq/=;
      try (destruct keys; simplify_eq/=; fail);
      unfold subscript;
      repeat (case_match; simplify_option_eq; try done).
  - intros keys key keys' v Hpath Hat Hv.
    unfold legacy_path in Hpath.
    destruct keys as [|k1 [|k2 [|k3 [|k4 keys]]]]; simplify_eq/=;
      try (destruct keys; simplify_eq/=; fail);
      (destruct v; [..|by destruct (Hv d)];
       eexists; apply (first_tweet_call_raises _ _ _ _ _ Hcalls);
       intros username; unfold first_tweet_call; rewrite Hjson;
       cbn [mbind result_bind]; unfold subscript;
       repeat first [ reflexivity
                    | progress cbn [mbind result_bind]
                    | case_match; simplify_option_eq ]).
  - intros v Hat Hv.
    destruct v; [..|by destruct (Hv d)];
      eexists; apply (first_tweet_call_raises _ _ _ _ _ Hcalls);
      intros username;
      rewrite (first_tweet_call_path _ _ _ data _ Hjson Hat); done.
Qed.

(** X8: the order in which the futures complete only permutes the result
    list: two runs over the same page visits return the same entries, in the
    orders of completion; when the futures complete in the order of
    submission, the links of the entries are the input list itself. *)
Theorem completion_order_permutes_results (browse : nat → page_visit)
    (order order' : list nat) (links : list pystr) :
  order ≡ₚ order' →
  ∃ results results',
    scrape_all_tweets browse order links = Ok results ∧
    scrape_all_tweets browse order' links = Ok results' ∧
    results ≡ₚ results' ∧
    (order = seq 0 (length links) → results.*1 = links).
Proof.
  intros Hperm.
  exists (omap (entry browse links) order), (omap (entry browse links) order').
  split_and!; [apply scrape_all_tweets_entries..| |].
  - by rewrite Hperm.
  - intros ->. apply entries_in_link_order.
Qed.

Lemma main_entries (input_csv : list (list pystr)) (browse : nat → page_visit)
    (order : list nat) :
  main input_csv browse order =
  Ok {| delimiter := N_of_ascii ";";
        records :=
          header ::
          (data_row <$>
           omap (entry browse (filter accepted (concat input_csv))) order) |}.
Proof.
  unfold main.
  rewrite get_links_from_csv_concat, extract_valid_links_eq. cbn [records].
  rewrite concat_singletons, scrape_all_tweets_entries. cbn [mbind result_bind].
  by rewrite save_results_to_csv_eq.
Qed.

Lemma entry_inv (browse : nat → page_visit) (links : list pystr) (i : nat)
    (e : pystr * dict) :
  entry browse links i = Some e →
  ∃ link, links !! i = Some link ∧
          e = recorded link (scrape_tweet_metadata link (browse i)).
Proof.
  unfold entry. destruct (links !! i) as [link|]; [|done].
  intros [= <-]. eauto.
Qed.





(** X14: when every page visit fails, the script still writes its output
    file, and every data row is an accepted link followed by six "N/A"
    fields: nothing of the exceptions reaches the file. *)
Theorem all_visits_fail (input_csv : list (list pystr))
    (browse : nat → page_visit) (order : list nat) :
  (∀ i, ∃ e, browse i = Failed e) →
  let na := PStr (str "N/A") in
  ∃ rows,
    main input_csv browse order =
    Ok {| delimiter := N_of_ascii ";"; records := header :: rows |} ∧
    Forall (λ row, ∃ link, accepted link ∧
                           row = [PStr link; na; na; na; na; na; na]) rows.
Proof.
  intros Hfail na. eexists. split; [apply main_entries|].
  apply Forall_fmap, Forall_forall. intros e He.
  apply list_elem_of_omap in He as (i & _ & He).
  apply entry_inv in He as (link & Hlink & ->).
  destruct (Hfail i) as [exc Hi].
  apply list_elem_of_lookup_2, list_elem_of_filter in Hlink as [Ha _].
  unfold compose. rewrite Hi, scrape_failed. cbn [recorded].
  exists link. split; [done|]. apply data_row_error.
Qed.

Lemma username_field (v1 v2 v3 v4 v5 v6 : pyval) :
  dict_of [(str "text", v1); (str "username", v2); (str "date", v3);
           (str "comment_count", v4); (str "like_count", v5);
           (str "share_count", v6)] !! str "username" = Some v2.
Proof. by destruct (dict_of_fields v1 v2 v3 v4 v5 v6) as (_ & ? & _). Qed.

Lemma returned_username_field (link : pystr) (visit : page_visit)
    (metadata : dict) :
  scrape_tweet_metadata link visit = Ok metadata →
  ∃ username,
    extract_username_from_url link = Ok username ∧
    metadata !! str "username" = Some (PStr username).
Proof.
  intros Hm.
  destruct (scrape_returned_username _ _ _ Hm) as (username & Hu & Hshape).
  exists username. split; [done|].
  destruct Hshape as [->|[legacy Hl]].
  - apply username_field.
  - rewrite tweet_metadata_dict in Hl. injection Hl as <-.
    apply username_field.
Qed.

(** X15: in the output of a run, the Username column tells the failures
    apart.  For a link the filter accepted, the row written for it has "N/A"
    under Username exactly when its task raised; a task that returned, with
    or without tweet call, leaves the username of the link there. *)
Theorem username_column_tells_errors (browse : nat → page_visit)
    (order : list nat) (links : list pystr) (k i : nat) (link : pystr) :
  order ≡ₚ seq 0 (length links) →
  order !! k = Some i → links !! i = Some link → accepted link →
  ∃ results,
    scrape_all_tweets browse order links = Ok results ∧
    (records (save_results_to_csv results) !! S k ≫= (.!! 2%nat) =
       Some (PStr (str "N/A")) ↔
     ∃ e, scrape_tweet_metadata link (browse i) = Raise e).
Proof.
  intros Hperm Hk Hlink Ha.
  exists (omap (entry browse links) order).
  split; [apply scrape_all_tweets_entries|].
  rewrite save_results_to_csv_eq. cbn [records].
  change ((header :: ?l) !! S k) with (l !! k).
  rewrite list_lookup_fmap, omap_lookup_total, Hk by by apply entry_is_Some.
  cbn [mbind option_bind]. unfold entry. rewrite Hlink.
  cbn [fmap option_fmap option_map mbind option_bind].
  destruct (scrape_tweet_metadata link (browse i)) as [metadata|e] eqn:E.
  - split; [|by intros [e He]]. intros Hna. exfalso.
    destruct (returned_username_field _ _ _ E) as (username & Hu & Hname).
    apply valid_link_shape in Ha as (u & d & t & Hw & Hd & _ & ->).
    rewrite extract_username_tweet_url in Hu by done. injection Hu as <-.
    unfold recorded in Hna.
    rewrite (returned_truthy _ (scrape_returned _ _ _ E)) in Hna.
    unfold data_row in Hna. cbn [fst snd lookup list_lookup] in Hna.
    rewrite Hname in Hna. injection Hna as ->.
    by apply segment_not_NA in Hw.
  - split; [by eauto|]. intros _. cbn [recorded].
    by rewrite data_row_error.
Qed.

End Further.

(** * Further runs *)

Section FurtherRuns.
#[local] Existing Instance latin1.

Lemma alice_accepted : accepted alice.
Proof. eexists. by vm_compute. Defined.

Lemma accepted_link_has_username_run :
  ∃ u d t, alice = tweet_url u d ++ t ∧ segment Word u ∧
           extract_username_from_url alice = Ok u ∧ u ≠ str "N/A".
Proof. exact (accepted_link_has_username alice alice_accepted). Defined.

Lemma accepted_link_is_plain_run :
  ∃ body t,
    alice = str "https://x.com/" ++ body ++ t ∧ (t = [] ∨ t = [10]) ∧
    Forall (λ c, c ≠ 44 ∧ c ≠ 34 ∧ c ≠ 13 ∧ c ≠ 10 ∧ c ≠ 32) body.
Proof. exact (accepted_link_is_plain alice alice_accepted). Defined.

Lemma returned_record_shape_run :
  scrape_tweet_metadata alice (Loaded [stylesheet; tweet_call]) =
    Ok (dict_of [(str "text", PStr (str "hello"));
                 (str "username", PStr (str "alice"));
                 (str "date", PStr (str "N/A"));
                 (str "comment_count", PStr (str "N/A"));
                 (str "like_count", PInt 3);
                 (str "share_count", PStr (str "N/A"))]) ∧
  ∃ username,
    extract_username_from_url alice = Ok username ∧
    dict_of [(str "text", PStr (str "hello"));
             (str "username", PStr (str "alice"));
             (str "date", PStr (str "N/A"));
             (str "comment_count", PStr (str "N/A"));
             (str "like_count", PInt 3);
             (str "share_count", PStr (str "N/A"))] !! str "username" =
      Some (PStr username).
Proof.
  assert (scrape_tweet_metadata alice (Loaded [stylesheet; tweet_call]) =
          Ok (dict_of [(str "text", PStr (str "hello"));
                       (str "username", PStr (str "alice"));
                       (str "date", PStr (str "N/A"));
                       (str "comment_count", PStr (str "N/A"));
                       (str "like_count", PInt 3);
                       (str "share_count", PStr (str "N/A"))])) as Hm
    by by vm_compute.
  split; [exact Hm|].
  destruct (returned_record_shape _ _ _ Hm) as (username & Hu & Hname & _).
  by exists username.
Defined.

Lemma bad_payload_exceptions_run :
  tweet_calls (xhr_calls [other_call; tombstone_call; tweet_call]) =
    tombstone_call :: [tweet_call] ∧
  scrape_tweet_metadata alice (Loaded [other_call; tombstone_call; tweet_call]) =
  Raise (KeyError (str "legacy")).
Proof.
  assert (tweet_calls (xhr_calls [other_call; tombstone_call; tweet_call]) =
          tombstone_call :: [tweet_call]) as Hcalls by by vm_compute.
  split; [exact Hcalls|].
  refine (proj1 (bad_payload_exceptions alice _ _ _ tombstone Hcalls eq_refl)
            [str "data"; str "tweetResult"; str "result"] (str "legacy") []
            (dict_of [(str "__typename", PStr (str "TweetTombstone"))])
            eq_refl _ _); by vm_compute.
Defined.

Lemma completion_order_permutes_results_run :
  ∃ results results',
    scrape_all_tweets second_fails [1; 0]%nat [alice; bob] = Ok results ∧
    scrape_all_tweets second_fails [0; 1]%nat [alice; bob] = Ok results' ∧
    results ≡ₚ results' ∧
    ([1; 0]%nat = seq 0 (length [alice; bob]) → results.*1 = [alice; bob]).
Proof.
  apply (completion_order_permutes_results second_fails [1; 0]%nat [0; 1]%nat).
  apply perm_swap.
Defined.



Lemma all_visits_fail_run :
  let na := PStr (str "N/A") in
  ∃ rows,
    main raw_file all_fail [0; 1]%nat =
    Ok {| delimiter := N_of_ascii ";"; records := header :: rows |} ∧
    Forall (λ row, ∃ link, accepted link ∧
                           row = [PStr link; na; na; na; na; na; na]) rows.
Proof.
  apply (all_visits_fail raw_file all_fail [0; 1]%nat).
  intros i. by exists timeout.
Defined.

Lemma bob_accepted : accepted bob.
Proof. eexists. by vm_compute. Defined.

Lemma username_column_tells_errors_run :
  ∃ results,
    scrape_all_tweets second_fails [1; 0]%nat [alice; bob] = Ok results ∧
    (records (save_results_to_csv results) !! 1%nat ≫= (.!! 2%nat) =
       Some (PStr (str "N/A")) ↔
     ∃ e, scrape_tweet_metadata bob (second_fails 1) = Raise e).
Proof.
  apply (username_column_tells_errors second_fails [1; 0]%nat [alice; bob]
           0 1 bob).
  - apply perm_swap.
  - reflexivity.
  - reflexivity.
  - exact bob_accepted.
Defined.

End FurtherRuns.
